(** * The ranking-table renderer of [static/js/script.js]

    The script is one promise chain:
<<
    fetch("/data")
      .then(res => res.json())
      .then(data => {
        let table = document.getElementById("ranking");
        data.forEach(row => {
          let tr = document.createElement("tr");
          row.forEach(cell => {
            let td = document.createElement("td");
            td.innerText = cell;
            tr.appendChild(td);
          });
          table.appendChild(tr);
        });
      });
>>
    It is embedded as a program in a small state-and-exception monad.  The
    state of the outer program is the [world] (network, page, log of the
    requests sent); the state of the inner [forEach] is the row element
    under construction.  The platform operations the script calls
    ([fetch], [Response.json], [getElementById], [createElement], the
    [innerText] setter, [appendChild], [Array.prototype.forEach]) are
    modelled after ECMAScript and the DOM and HTML standards. *)

From Stdlib Require Import ZArith String Ascii List Lia Bool DecimalString.
Import ListNotations.
Open Scope string_scope.
Set Warnings "-register-all".

(** ** Outcomes *)

(** What the script can throw, by the place that throws it. *)
Inductive error : Type :=
| FetchFailed      (* TypeError: [fetch] got no response from the network *)
| BodyNotJSON      (* SyntaxError: [res.json()] could not parse the body *)
| NotAFunction     (* TypeError: [x.forEach] on a value that is no array *)
| NotPrimitive     (* TypeError: the value assigned to [innerText] cannot be
                      converted to a string *)
| NullReference.   (* TypeError: [table.appendChild] with [table] null *)

Inductive outcome (A : Type) : Type :=
| Ok (a : A)
| Err (e : error).
Arguments Ok {A} a.
Arguments Err {A} e.

Section Traversals.
Context {A B C : Type}.

(** The results of [f] on the elements from left to right, or the first
    exception. *)
Fixpoint all_ok (f : A -> outcome B) (l : list A) : outcome (list B) :=
  match l with
  | [] => Ok []
  | x :: l' =>
      match f x with
      | Ok b =>
          match all_ok f l' with
          | Ok bs => Ok (b :: bs)
          | Err e => Err e
          end
      | Err e => Err e
      end
  end.

(** The first element, counted from [k], on which [g] answers. *)
Fixpoint first_at (g : A -> option C) (k : nat) (l : list A)
  : option (nat * C) :=
  match l with
  | [] => None
  | x :: l' =>
      match g x with
      | Some c => Some (k, c)
      | None => first_at g (S k) l'
      end
  end.

Fixpoint update_nth (k : nat) (f : A -> A) (l : list A) : list A :=
  match l, k with
  | [], _ => []
  | x :: l', O => f x :: l'
  | x :: l', S k' => x :: update_nth k' f l'
  end.
End Traversals.

(** ** Line breaks *)

Definition LF : ascii := "010"%char.
Definition CR : ascii := "013"%char.

Fixpoint has_line_break (s : string) : bool :=
  match s with
  | EmptyString => false
  | String c rest =>
      orb (orb (Ascii.eqb c CR) (Ascii.eqb c LF)) (has_line_break rest)
  end.


(** ** Numbers

    A JSON number is parsed to an IEEE double, and the script does one
    thing with it: [Number::toString], when the number is assigned to
    [innerText].  The numbers and their string forms are therefore kept
    abstract; all that is used of [Number::toString] is that its result
    (digits, a sign, a point, an exponent, or [Infinity]) is never empty
    and holds no line break. *)
Class Numbers : Type := {
  number : Type;
  Number_toString : number -> string;
  Number_toString_filled : forall n, Number_toString n <> "";
  Number_toString_one_line :
    forall n, has_line_break (Number_toString n) = false
}.

(** ** DOM nodes *)

Inductive node : Type :=
| Text (data : string)
| Elem (tag : string) (attrs : list (string * string)) (kids : list node).

(** An element the script creates and holds in a variable ([tr], [td]);
    it has no attribute. *)
Record element : Type := mkElement {
  tagName : string;
  childNodes : list node
}.

Definition as_node (e : element) : node := Elem (tagName e) [] (childNodes e).

(** [document.createElement(tag)]: a detached element without children. *)
Definition createElement (tag : string) : element :=
  {| tagName := tag; childNodes := [] |}.

(** [parent.appendChild(child)] for a [child] that has no parent yet, which
    is the case of every node the script appends: the child becomes the
    last child. *)
Definition appendChild (child : node) (parent : element) : element :=
  {| tagName := tagName parent; childNodes := childNodes parent ++ [child] |}.

Definition is_element (n : node) : bool :=
  match n with
  | Text _ => false
  | Elem _ _ _ => true
  end.

Definition kids_of (n : node) : list node :=
  match n with
  | Text _ => []
  | Elem _ _ kids => kids
  end.

Definition tag_of (n : node) : string :=
  match n with
  | Text _ => ""
  | Elem tag _ _ => tag
  end.

Definition attrs_of (n : node) : list (string * string) :=
  match n with
  | Text _ => []
  | Elem _ attrs _ => attrs
  end.

(** The element children of a node ([Element.children]). *)
Definition children (n : node) : list node := filter is_element (kids_of n).

(** [Node.textContent]: the data of the text nodes below the node, in tree
    order.  It is read off the tree alone, unlike the text a browser
    shows, which depends on the style sheets of the page. *)
Fixpoint textContent (n : node) : string :=
  match n with
  | Text data => data
  | Elem _ _ kids => String.concat "" (map textContent kids)
  end.

(** *** The rendered text fragment of the [innerText] setter

    The setter replaces all children of the element by the "rendered text
    fragment" of the string it is given: the text is cut at every line
    break (LF, CR or the pair CR LF); each non-empty run in between
    becomes a [Text] node and each line break becomes a [br] element.  No
    markup is parsed. *)
Definition text_run (text : string) : list node :=
  match text with
  | EmptyString => []
  | _ => [Text text]
  end.

Definition br : node := Elem "br" [] [].

Fixpoint fragment_from (text input : string) : list node :=
  match input with
  | EmptyString => text_run text
  | String c rest =>
      if Ascii.eqb c CR then
        text_run text ++ br ::
          match rest with
          | String c' rest' =>
              if Ascii.eqb c' LF then fragment_from "" rest'
              else fragment_from "" rest
          | EmptyString => fragment_from "" rest
          end
      else if Ascii.eqb c LF then
        text_run text ++ br :: fragment_from "" rest
      else fragment_from (text ++ String c "") rest
  end.

Definition rendered_text_fragment (input : string) : list node :=
  fragment_from "" input.

(** *** The page as a tree *)

Fixpoint id_of (attrs : list (string * string)) : option string :=
  match attrs with
  | [] => None
  | (name, v) :: attrs' => if String.eqb name "id" then Some v else id_of attrs'
  end.

Definition has_id (id : string) (attrs : list (string * string)) : bool :=
  match id_of attrs with
  | Some i => String.eqb i id
  | None => false
  end.

(** The first element in tree order that carries the [id], as the path
    of child indices that leads to it from the root. *)
Fixpoint find_id (id : string) (n : node) : option (list nat) :=
  match n with
  | Text _ => None
  | Elem _ attrs kids =>
      if has_id id attrs then Some []
      else
        match first_at (find_id id) 0 kids with
        | Some (k, p) => Some (k :: p)
        | None => None
        end
  end.

(** The node a path leads to. *)
Fixpoint subtree (p : list nat) (n : node) : option node :=
  match p with
  | [] => Some n
  | k :: p' =>
      match nth_error (kids_of n) k with
      | Some x => subtree p' x
      | None => None
      end
  end.

Definition extend (ns : list node) (n : node) : node :=
  match n with
  | Text _ => n
  | Elem tag attrs kids => Elem tag attrs (kids ++ ns)
  end.

(** The tree in which the element at the path has [ns] as further last
    children. *)
Fixpoint extend_at (p : list nat) (ns : list node) (n : node) : node :=
  match p with
  | [] => extend ns n
  | k :: p' =>
      match n with
      | Text _ => n
      | Elem tag attrs kids =>
          Elem tag attrs (update_nth k (extend_at p' ns) kids)
      end
  end.

Fixpoint is_prefix (q p : list nat) : bool :=
  match q, p with
  | [], _ => true
  | _ :: _, [] => false
  | i :: q', j :: p' => andb (Nat.eqb i j) (is_prefix q' p')
  end.

(** The children of the container, when the page has one. *)
Definition container (d : node) : option (list node) :=
  match find_id "ranking" d with
  | Some p => option_map kids_of (subtree p d)
  | None => None
  end.

Definition present (d : node) : bool :=
  match find_id "ranking" d with
  | Some _ => true
  | None => false
  end.

(** *** The shape of what the script builds *)

(** What the setter puts into a cell: a text node that is not empty and
    holds no line break, or a [br] element without attribute or child. *)
Definition is_leaf (n : node) : bool :=
  match n with
  | Text data =>
      andb (negb (has_line_break data))
           (match data with EmptyString => false | _ => true end)
  | Elem tag attrs kids =>
      andb (String.eqb tag "br")
           (andb (match attrs with [] => true | _ => false end)
                 (match kids with [] => true | _ => false end))
  end.

Definition is_cell (n : node) : bool :=
  match n with
  | Text _ => false
  | Elem tag attrs kids =>
      andb (String.eqb tag "td")
           (andb (match attrs with [] => true | _ => false end)
                 (forallb is_leaf kids))
  end.

Definition is_row (n : node) : bool :=
  match n with
  | Text _ => false
  | Elem tag attrs kids =>
      andb (String.eqb tag "tr")
           (andb (match attrs with [] => true | _ => false end)
                 (forallb is_cell kids))
  end.

(** ** The state-and-exception monad *)

(** A computation over a state [S]: the state reached when an exception
    is thrown is kept, since the DOM is not rolled back. *)
Definition M (S A : Type) : Type := S -> outcome A * S.

Definition ret {S A} (a : A) : M S A := fun s => (Ok a, s).

Definition throw {S A} (e : error) : M S A := fun s => (Err e, s).

Definition bind {S A B} (m : M S A) (k : A -> M S B) : M S B :=
  fun s =>
    match m s with
    | (Ok a, s') => k a s'
    | (Err e, s') => (Err e, s')
    end.

Notation "x <- m ;; k" := (bind m (fun x => k))
  (at level 61, m at next level, right associativity).

(** Runs [m] on a local variable initialised to [init] and returns the
    final content of that variable; an exception leaves through the
    enclosing computation. *)
Definition with_local {S L A} (init : L) (m : M L A) : M S L :=
  fun s =>
    match m init with
    | (Ok _, l) => (Ok l, s)
    | (Err e, _) => (Err e, s)
    end.

Definition unhandled_rejection (o : outcome unit) : Prop :=
  exists e, o = Err e.

Record request : Type := mkRequest {
  url : string;
  method : string;
  headers : list (string * string);
  body : option string
}.

(** The request the script is written to send. *)
Definition data_request : request :=
  {| url := "/data"; method := "GET"; headers := []; body := None |}.

(** The query component of a URL: what follows the first [?]. *)
Fixpoint query_of (u : string) : option string :=
  match u with
  | EmptyString => None
  | String c rest => if Ascii.eqb c "?"%char then Some rest else query_of rest
  end.

Section Renderer.
Context {NUM : Numbers}.

(** ** Values produced by [JSON.parse] *)

(** A parsed JSON text is [null], a boolean, a number, a string, an array
    or an object with its own properties in the order of the text. *)
Inductive value : Type :=
| VNull
| VBool (b : bool)
| VNum (n : number)
| VStr (s : string)
| VArr (items : list value)
| VObj (fields : list (string * value)).

Definition is_array (v : value) : bool :=
  match v with
  | VArr _ => true
  | _ => false
  end.

Definition has_own (key : string) (fields : list (string * value)) : bool :=
  existsb (fun f => String.eqb (fst f) key) fields.

(** ECMAScript [ToString] on a parsed value.

    An array prints as [Array.prototype.join] of its elements with a
    comma, where a [null] element prints as the empty string and any
    other element by [ToString].

    An object goes through [OrdinaryToPrimitive]: its [toString] is
    called when it is callable, then its [valueOf].  No property that
    comes out of [JSON.parse] is callable, so an own [toString] property
    hides [Object.prototype.toString], and [valueOf], own or inherited,
    yields no primitive: the conversion throws a TypeError.  Without an
    own [toString] property the inherited one answers
    ["[object Object]"]. *)
Fixpoint ToString (v : value) : outcome string :=
  match v with
  | VNull => Ok "null"
  | VBool true => Ok "true"
  | VBool false => Ok "false"
  | VNum n => Ok (Number_toString n)
  | VStr s => Ok s
  | VArr items =>
      match
        all_ok (fun x => match x with VNull => Ok "" | _ => ToString x end)
               items
      with
      | Ok parts => Ok (String.concat "," parts)
      | Err e => Err e
      end
  | VObj fields =>
      if has_own "toString" fields then Err NotPrimitive
      else Ok "[object Object]"
  end.

(** *** The [innerText] setter

    The attribute is declared
    [[LegacyNullToEmptyString] DOMString innerText]: the assigned value is
    converted to a string by [ToString], except [null], which gives the
    empty string.  An exception of the conversion leaves the element as
    it was. *)
Definition DOMString_of (v : value) : outcome string :=
  match v with
  | VNull => Ok ""
  | _ => ToString v
  end.

Definition set_innerText (v : value) (e : element) : outcome element :=
  match DOMString_of v with
  | Ok s => Ok {| tagName := tagName e; childNodes := rendered_text_fragment s |}
  | Err err => Err err
  end.

(** ** [forEach] *)

(** [Array.prototype.forEach]: the callback runs on the elements from
    index 0 upwards, and an exception of the callback ends the loop. *)
Fixpoint each {S} (f : value -> M S unit) (items : list value) : M S unit :=
  match items with
  | [] => ret tt
  | x :: rest => _ <- f x ;; each f rest
  end.

(** [v.forEach(f)] on a parsed JSON value: only arrays have the method. *)
Definition forEach {S} (v : value) (f : value -> M S unit) : M S unit :=
  match v with
  | VArr items => each f items
  | _ => throw NotAFunction
  end.

(** ** The world of a page load *)

(** A response as the script can observe it: its status and what
    [res.json()] settles to ([None] when the body cannot be read or is
    not a JSON text). *)
Record response : Type := mkResponse {
  status : Z;
  json_body : option value
}.

(** [Response.ok]: the status is in the range 200 to 299. *)
Definition ok (res : response) : bool :=
  andb (200 <=? status res)%Z (status res <=? 299)%Z.

(** The network answers the request that is sent after [n] earlier ones,
    or gives no response; the page is the tree below its root element;
    [sent] is the log of the requests sent so far. *)
Record world : Type := mkWorld {
  network : nat -> request -> option response;
  page : node;
  sent : list request
}.

(** [fetch(input)] with no second argument: a [GET] request with no
    header and no body of the script's own.  The promise rejects only
    when the network gives no response at all. *)
Definition fetch (input : string) : M world response :=
  fun w =>
    let rq := {| url := input; method := "GET"; headers := []; body := None |} in
    let w' := {| network := network w; page := page w; sent := sent w ++ [rq] |} in
    match network w (length (sent w)) rq with
    | Some res => (Ok res, w')
    | None => (Err FetchFailed, w')
    end.

Definition json (res : response) : M world value :=
  match json_body res with
  | Some v => ret v
  | None => throw BodyNotJSON
  end.

(** [document.getElementById(id)]: the element, as its path, or [null]. *)
Definition getElementById (id : string) : M world (option (list nat)) :=
  fun w => (Ok (find_id id (page w)), w).

(** [target.appendChild(child)] on the result of [getElementById]. *)
Definition appendChild_to (target : option (list nat)) (child : node)
  : M world unit :=
  fun w =>
    match target with
    | None => (Err NullReference, w)
    | Some p =>
        (Ok tt, {| network := network w;
                   page := extend_at p [child] (page w);
                   sent := sent w |})
    end.

(** ** The script *)

(** Body of the inner loop; its state is the row [tr]. *)
Definition cell_callback (cell : value) : M element unit :=
  fun tr =>
    let td := createElement "td" in
    match set_innerText cell td with
    | Ok td => (Ok tt, appendChild (as_node td) tr)
    | Err e => (Err e, tr)
    end.

(** Body of the outer loop. *)
Definition row_callback (table : option (list nat)) (row : value)
  : M world unit :=
  tr <- with_local (createElement "tr") (forEach row cell_callback) ;;
  appendChild_to table (as_node tr).

Definition script : M world unit :=
  res <- fetch "/data" ;;
  data <- json res ;;
  table <- getElementById "ranking" ;;
  forEach data (row_callback table).

(** A page load: the outcome of the promise chain, to which no rejection
    handler is attached, and the world it leaves. *)
Definition run (w : world) : outcome unit * world := script w.

Definition settled (w : world) : outcome unit := fst (run w).
Definition after (w : world) : world := snd (run w).

(** ** What the loops build *)


(** The cell the inner callback appends for one value. *)
Definition render_cell (v : value) : outcome node :=
  match set_innerText v (createElement "td") with
  | Ok td => Ok (as_node td)
  | Err e => Err e
  end.

(** The row the outer callback appends for a row that is an array. *)
Definition render_row (cells : list value) : outcome node :=
  match all_ok render_cell cells with
  | Ok tds => Ok (Elem "tr" [] tds)
  | Err e => Err e
  end.

(** The rows the outer loop appends to an existing container, and how the
    loop ends: it stops at the first row that is no array or holds a
    value the setter does not accept. *)
Fixpoint rows_of (items : list value) : list node * outcome unit :=
  match items with
  | [] => ([], Ok tt)
  | VArr cells :: rest =>
      match render_row cells with
      | Ok tr => let (trs, o) := rows_of rest in (tr :: trs, o)
      | Err e => ([], Err e)
      end
  | _ :: _ => ([], Err NotAFunction)
  end.

(** How the outer loop ends when [table] is [null]. *)
Definition without_table (items : list value) : outcome unit :=
  match items with
  | [] => Ok tt
  | VArr cells :: _ =>
      match render_row cells with
      | Ok _ => Err NullReference
      | Err e => Err e
      end
  | _ :: _ => Err NotAFunction
  end.

(** What the first two links of the chain hand to the rendering
    callback. *)
Definition payload (w : world) : outcome value :=
  match network w (length (sent w)) data_request with
  | None => Err FetchFailed
  | Some res =>
      match json_body res with
      | None => Err BodyNotJSON
      | Some v => Ok v
      end
  end.

(** The world once the request has been sent. *)
Definition logged (w : world) : world :=
  {| network := network w; page := page w; sent := sent w ++ [data_request] |}.

Definition grow (p : list nat) (ns : list node) (w : world) : world :=
  {| network := network w;
     page := extend_at p ns (page w);
     sent := sent w |}.

(** The row elements a payload adds to an existing container. *)
Definition rendered (data : value) : list node :=
  match data with
  | VArr items => fst (rows_of items)
  | _ => []
  end.

(** How the rendering callback ends on a payload, with and without a
    container in the page. *)
Definition ending (present : bool) (data : value) : outcome unit :=
  match data with
  | VArr items => if present then snd (rows_of items) else without_table items
  | _ => Err NotAFunction
  end.

(** A boolean, a number, or an object without an own [toString]
    property: the values whose string form is fixed by their kind. *)
Definition is_plain_scalar (v : value) : bool :=
  match v with
  | VBool _ | VNum _ => true
  | VObj fields => negb (has_own "toString" fields)
  | _ => false
  end.


(** The reading of a cell as plain text: no element child, and the
    string form of the value as its text. *)
Definition plain_text_cell (v : value) (td : node) : Prop :=
  children td = [] /\ Ok (textContent td) = ToString v.



End Renderer.

(** ** A model of the numbers, and sample worlds *)

(** The safe integers, which [Number::toString] prints in plain
    decimal. *)
Definition safe (z : Z) : bool := (Z.abs z <? 2 ^ 53)%Z.

Record safe_integer : Type := mkSafe {
  int_value : Z;
  int_is_safe : safe int_value = true
}.

Definition decimal (n : safe_integer) : string :=
  NilZero.string_of_int (Z.to_int (int_value n)).

#[export] Instance SafeIntegers : Numbers.
Proof.
  refine {| number := safe_integer; Number_toString := decimal |}.
  - intros [z H]. unfold decimal, NilZero.string_of_int, NilZero.string_of_uint.
    cbn [int_value].
    destruct (Z.to_int z) as [d|d]; destruct d; discriminate.
  - assert (D : forall d, has_line_break (NilEmpty.string_of_uint d) = false)
      by (induction d; simpl; try reflexivity; assumption).
    intros [z H]. unfold decimal, NilZero.string_of_int, NilZero.string_of_uint.
    cbn [int_value].
    destruct (Z.to_int z) as [d|d]; destruct d; try reflexivity;
      simpl; apply D.
Defined.

Definition int (z : Z) {H : safe z = true} : safe_integer :=
  {| int_value := z; int_is_safe := H |}.

Definition serve (res : option response) (d : node) : world :=
  {| network := fun _ _ => res; page := d; sent := [] |}.

Definition reply (code : Z) (data : value) : option response :=
  Some {| status := code; json_body := Some data |}.

Definition heading : node := Elem "h1" [("id", "title")] [Text "Ranking"].

Definition thead : node := Elem "thead" [] [Elem "tr" [] [Elem "th" [] [Text "Name"]]].

Definition page_with (kids : list node) : node :=
  Elem "html" []
    [Elem "body" [] [heading; Elem "table" [("id", "ranking")] kids]].

Definition empty_table : node := page_with [].

Definition table_with_head : node := page_with [thead].

(** A page in which the container sits inside an element that carries an
    [id] of its own. *)
Definition wrapped_table : node :=
  Elem "html" []
    [Elem "body" []
       [Elem "div" [("id", "wrap")] [Elem "table" [("id", "ranking")] []];
        heading]].


Definition score_rows : list (list value) :=
  [[VStr "Alice"; VNum (@int 10 eq_refl)];
   [VStr "Bob"; VNum (@int 7 eq_refl)]].

Definition scores : value := VArr (map VArr score_rows).


Definition two_lines : value := VStr ("a" ++ String LF "b").

Definition marked_up : value := VStr "<b>Alice</b>".

Definition loss : value := VNum (@int (-42) eq_refl).

(** The parsed form of [{"toString": 1}]. *)
Definition poisoned : value := VObj [("toString", VNum (@int 1 eq_refl))].

(** * Lemmas *)

(** ** Strings *)

Lemma append_empty_r (s : string) : s ++ "" = s.
Proof.
  induction s as [|c s IH]; simpl; [reflexivity | now rewrite IH].
Qed.

Lemma append_assoc3 (a b c : string) : (a ++ b) ++ c = a ++ (b ++ c).
Proof.
  induction a as [|x a IH]; simpl; [reflexivity | now rewrite IH].
Qed.



(** Induction on strings that may consume two characters at a step, as
    the scan for CR LF does. *)
Lemma string_pair_ind (P : string -> Prop) :
  P "" ->
  (forall c, P (String c "")) ->
  (forall c c' s, P s -> P (String c' s) -> P (String c (String c' s))) ->
  forall s, P s.
Proof.
  intros H0 H1 H2 s.
  assert (H : P s /\ forall c, P (String c s)).
  { induction s as [|c' s [IHs IHc]].
    - split; [exact H0 | exact H1].
    - split; [apply IHc | intro c; apply H2; [exact IHs | apply IHc]]. }
  apply H.
Qed.

Lemma has_line_break_app (a b : string) :
  has_line_break (a ++ b) = orb (has_line_break a) (has_line_break b).
Proof.
  induction a as [|c a IH]; simpl; [reflexivity|].
  rewrite IH. now rewrite Bool.orb_assoc.
Qed.


(** ** The rendered text fragment *)

Lemma fragment_from_step (text : string) (c : ascii) (rest : string) :
  fragment_from text (String c rest) =
  if Ascii.eqb c CR then
    (text_run text ++ br ::
       match rest with
       | String c' rest' =>
           if Ascii.eqb c' LF then fragment_from "" rest'
           else fragment_from "" rest
       | EmptyString => fragment_from "" rest
       end)%list
  else if Ascii.eqb c LF then (text_run text ++ br :: fragment_from "" rest)%list
  else fragment_from (text ++ String c "") rest.
Proof. reflexivity. Qed.


Lemma text_of_run (t : string) :
  String.concat "" (map textContent (text_run t)) = t.
Proof.
  destruct t; reflexivity.
Qed.



Lemma fragment_without_break (input : string) :
  forall text,
    has_line_break input = false ->
    fragment_from text input = text_run (text ++ input).
Proof.
  induction input as [|c s IH]; intros text H.
  - now rewrite append_empty_r.
  - rewrite fragment_from_step. cbn [has_line_break] in H.
    destruct (Ascii.eqb c CR); [discriminate|].
    destruct (Ascii.eqb c LF); [discriminate|].
    rewrite IH by exact H. now rewrite append_assoc3.
Qed.

(** The setter creates text nodes and [br] elements, nothing else. *)
Lemma fragment_nodes (input : string) :
  forall text n,
    In n (fragment_from text input) -> (exists data, n = Text data) \/ n = br.
Proof.
  assert (R : forall t n, In n (text_run t) -> (exists data, n = Text data) \/ n = br).
  { intros [|a t] n H; simpl in H; [contradiction|].
    destruct H as [H|[]]. left. now exists (String a t). }
  assert (B : forall t rest n,
             (forall m, In m rest -> (exists data, m = Text data) \/ m = br) ->
             In n (text_run t ++ br :: rest)%list ->
             (exists data, n = Text data) \/ n = br).
  { intros t rest n Hrest H. apply in_app_or in H.
    destruct H as [H|[H|H]]; [now apply (R t) | now right | now apply Hrest]. }
  induction input as [|c|c c' s IHs IHc] using string_pair_ind; intros text n.
  - apply R.
  - rewrite fragment_from_step.
    destruct (Ascii.eqb c CR); [|destruct (Ascii.eqb c LF)].
    + apply B. intros m [].
    + apply B. intros m [].
    + apply R.
  - rewrite fragment_from_step. cbv beta iota.
    destruct (Ascii.eqb c CR); [|destruct (Ascii.eqb c LF)].
    + apply B. destruct (Ascii.eqb c' LF); intro m; [apply IHs | apply IHc].
    + apply B. intro m. apply IHc.
    + apply IHc.
Qed.

Lemma text_run_leaves (t : string) :
  has_line_break t = false -> forallb is_leaf (text_run t) = true.
Proof.
  intro H. destruct t as [|c t]; [reflexivity|].
  cbn [text_run forallb is_leaf]. now rewrite H.
Qed.

Lemma break_leaves (t : string) (ns : list node) :
  has_line_break t = false ->
  forallb is_leaf ns = true ->
  forallb is_leaf (text_run t ++ br :: ns) = true.
Proof.
  intros Ht Hns. rewrite forallb_app, (text_run_leaves t Ht).
  cbn [forallb]. now rewrite Hns.
Qed.

Lemma fragment_leaves (input : string) :
  forall text,
    has_line_break text = false ->
    forallb is_leaf (fragment_from text input) = true.
Proof.
  assert (G : forall text c,
             has_line_break text = false ->
             Ascii.eqb c CR = false -> Ascii.eqb c LF = false ->
             has_line_break (text ++ String c "") = false).
  { intros text c Ht E1 E2. rewrite has_line_break_app, Ht.
    cbn [has_line_break]. now rewrite E1, E2. }
  induction input as [|c|c c' s IHs IHc] using string_pair_ind; intros text Ht.
  - now apply text_run_leaves.
  - rewrite fragment_from_step.
    destruct (Ascii.eqb c CR) eqn:E1; [|destruct (Ascii.eqb c LF) eqn:E2].
    + now apply break_leaves.
    + now apply break_leaves.
    + apply text_run_leaves. now apply G.
  - rewrite fragment_from_step. cbv beta iota.
    destruct (Ascii.eqb c CR) eqn:E1; [|destruct (Ascii.eqb c LF) eqn:E2].
    + apply break_leaves; [exact Ht|].
      destruct (Ascii.eqb c' LF); [now apply IHs | now apply IHc].
    + apply break_leaves; [exact Ht | now apply IHc].
    + apply IHc. now apply G.
Qed.

(** ** Lists *)

Section ListFacts.
Context {A B C : Type}.

Lemma update_nth_ext (k : nat) (f g : A -> A) (l : list A) :
  (forall x, f x = g x) -> update_nth k f l = update_nth k g l.
Proof.
  intro H. revert k.
  induction l as [|x l IH]; intros [|k]; simpl; try reflexivity.
  - now rewrite H.
  - now rewrite IH.
Qed.

Lemma update_nth_same (k : nat) (f : A -> A) (l : list A) :
  (forall x, f x = x) -> update_nth k f l = l.
Proof.
  intro H. revert k.
  induction l as [|x l IH]; intros [|k]; simpl; try reflexivity.
  - now rewrite H.
  - now rewrite IH.
Qed.

Lemma update_nth_twice (k : nat) (f g : A -> A) (l : list A) :
  update_nth k f (update_nth k g l) = update_nth k (fun x => f (g x)) l.
Proof.
  revert k.
  induction l as [|x l IH]; intros [|k]; simpl; try reflexivity.
  now rewrite IH.
Qed.

Lemma nth_update_nth (k : nat) (f : A -> A) (l : list A) :
  nth_error (update_nth k f l) k = option_map f (nth_error l k).
Proof.
  revert k.
  induction l as [|x l IH]; intros [|k]; simpl; try reflexivity.
  apply IH.
Qed.

Lemma nth_update_nth_other (k i : nat) (f : A -> A) (l : list A) :
  i <> k -> nth_error (update_nth k f l) i = nth_error l i.
Proof.
  revert k i.
  induction l as [|x l IH]; intros [|k] [|i] N; simpl; try reflexivity.
  - now contradiction N.
  - apply IH. intros ->. now apply N.
Qed.

Lemma first_at_found (g : A -> option C) (l : list A) :
  forall j k c,
    first_at g j l = Some (k, c) ->
    exists i x, k = j + i /\ nth_error l i = Some x /\ g x = Some c.
Proof.
  induction l as [|x l IH]; intros j k c H; simpl in H; [discriminate|].
  destruct (g x) as [c'|] eqn:G.
  - injection H as <- <-. exists 0, x. repeat split; [lia | exact G].
  - destruct (IH _ _ _ H) as [i [y [-> [Hy Hc]]]].
    exists (S i), y. repeat split; [lia | exact Hy | exact Hc].
Qed.

Lemma first_at_none (g : A -> option C) (l : list A) (j : nat) :
  (forall x, In x l -> g x = None) -> first_at g j l = None.
Proof.
  revert j. induction l as [|x l IH]; intros j H; [reflexivity|].
  simpl. rewrite (H x (or_introl eq_refl)).
  apply IH. intros y Hy. apply H. now right.
Qed.

Lemma first_at_app_none (g : A -> option C) (l more : list A) (j : nat) :
  (forall x, In x more -> g x = None) ->
  first_at g j (l ++ more) = first_at g j l.
Proof.
  intro H. revert j. induction l as [|x l IH]; intro j; simpl.
  - now apply first_at_none.
  - destruct (g x); [reflexivity | apply IH].
Qed.

Lemma first_at_update (g : A -> option C) (f : A -> A) (k : nat) (l : list A) :
  (forall x, g (f x) = g x) ->
  forall j, first_at g j (update_nth k f l) = first_at g j l.
Proof.
  intro H. revert k.
  induction l as [|x l IH]; intros [|k] j; simpl; try reflexivity.
  - now rewrite H.
  - destruct (g x); [reflexivity | apply IH].
Qed.



End ListFacts.

(** ** The page as a tree *)

Lemma extend_nil (n : node) : extend [] n = n.
Proof.
  destruct n; simpl; [reflexivity | now rewrite app_nil_r].
Qed.

Lemma extend_twice (ns ms : list node) (n : node) :
  extend ms (extend ns n) = extend (ns ++ ms) n.
Proof.
  destruct n; simpl; [reflexivity | now rewrite app_assoc].
Qed.

Lemma extend_at_nil (p : list nat) : forall n, extend_at p [] n = n.
Proof.
  induction p as [|k p IH]; intro n.
  - apply extend_nil.
  - destruct n as [|tag attrs kids]; [reflexivity|].
    cbn [extend_at]. now rewrite (update_nth_same k _ kids IH).
Qed.

Lemma extend_at_twice (p : list nat) (ns ms : list node) :
  forall n, extend_at p ms (extend_at p ns n) = extend_at p (ns ++ ms) n.
Proof.
  induction p as [|k p IH]; intro n.
  - apply extend_twice.
  - destruct n as [|tag attrs kids]; [reflexivity|].
    cbn [extend_at]. rewrite update_nth_twice.
    f_equal. now apply update_nth_ext.
Qed.

Lemma find_id_step (id tag : string) (attrs : list (string * string))
      (kids : list node) :
  find_id id (Elem tag attrs kids) =
  if has_id id attrs then Some []
  else
    match first_at (find_id id) 0 kids with
    | Some (k, p) => Some (k :: p)
    | None => None
    end.
Proof. reflexivity. Qed.

(** The path [getElementById] finds leads to an element. *)
Lemma find_id_element (id : string) (p : list nat) :
  forall n,
    find_id id n = Some p ->
    exists tag attrs kids, subtree p n = Some (Elem tag attrs kids).
Proof.
  induction p as [|k p IH]; intros n H.
  - destruct n as [|tag attrs kids]; [discriminate|].
    now exists tag, attrs, kids.
  - destruct n as [|tag attrs kids]; [discriminate|].
    rewrite find_id_step in H.
    destruct (has_id id attrs); [discriminate|].
    destruct (first_at (find_id id) 0 kids) as [[k' p']|] eqn:F; [|discriminate].
    injection H as -> ->.
    destruct (first_at_found _ _ _ _ _ F) as [i [x [-> [Hx Hp]]]].
    cbn [subtree kids_of]. simpl. rewrite Hx. now apply IH.
Qed.

(** Nodes without the [id] change no search when they are appended. *)
Lemma find_id_extend_at (id : string) (ns : list node) (p : list nat) :
  (forall x, In x ns -> find_id id x = None) ->
  forall n, find_id id (extend_at p ns n) = find_id id n.
Proof.
  intro H. induction p as [|k p IH]; intro n.
  - destruct n as [|tag attrs kids]; [reflexivity|].
    cbn [extend_at extend]. rewrite !find_id_step.
    now rewrite first_at_app_none.
  - destruct n as [|tag attrs kids]; [reflexivity|].
    cbn [extend_at]. rewrite !find_id_step.
    now rewrite first_at_update.
Qed.

Lemma subtree_extend_at (p : list nat) (ns : list node) :
  forall n,
    subtree p (extend_at p ns n) = option_map (extend ns) (subtree p n).
Proof.
  induction p as [|k p IH]; intro n.
  - reflexivity.
  - destruct n as [|tag attrs kids]; [now destruct k|].
    cbn [extend_at subtree kids_of]. rewrite nth_update_nth.
    destruct (nth_error kids k) as [x|]; [apply IH | reflexivity].
Qed.

(** A node that is neither the extended element nor one of its ancestors
    stays where it is, as it is. *)
Lemma subtree_extend_at_other (ns : list node) (p : list nat) :
  forall q n x,
    is_prefix q p = false ->
    subtree q n = Some x ->
    subtree q (extend_at p ns n) = Some x.
Proof.
  induction p as [|k p IH]; intros q n x Q H.
  - destruct q as [|i q]; [discriminate|].
    destruct n as [|tag attrs kids]; [now destruct i|].
    cbn [extend_at extend subtree kids_of] in *.
    destruct (nth_error kids i) as [y|] eqn:E; [|discriminate].
    rewrite nth_error_app1; [now rewrite E|].
    apply nth_error_Some. now rewrite E.
  - destruct q as [|i q]; [discriminate|].
    destruct n as [|tag attrs kids]; [exact H|].
    cbn [extend_at subtree kids_of is_prefix] in *.
    destruct (Nat.eqb i k) eqn:E.
    + apply Nat.eqb_eq in E. subst i. rewrite nth_update_nth.
      destruct (nth_error kids k) as [y|]; [|discriminate].
      cbn [option_map]. now apply IH.
    + apply Nat.eqb_neq in E. rewrite nth_update_nth_other by exact E.
      exact H.
Qed.

(** Every node stays at its path with its tag and attributes. *)
Lemma subtree_extend_at_label (ns : list node) (p : list nat) :
  forall q n x,
    subtree q n = Some x ->
    exists x',
      subtree q (extend_at p ns n) = Some x' /\
      tag_of x' = tag_of x /\ attrs_of x' = attrs_of x.
Proof.
  assert (E : forall q n x,
             subtree q n = Some x ->
             exists x', subtree q (extend ns n) = Some x' /\
                        tag_of x' = tag_of x /\ attrs_of x' = attrs_of x).
  { intros [|i q] n x H.
    - injection H as <-. exists (extend ns n). now destruct n.
    - destruct n as [|tag attrs kids]; [now destruct i|].
      cbn [extend subtree kids_of] in *.
      destruct (nth_error kids i) as [y|] eqn:Y; [|discriminate].
      exists x. rewrite nth_error_app1; [now rewrite Y|].
      apply nth_error_Some. now rewrite Y. }
  induction p as [|k p IH]; intros q n x H; [now apply E|].
  destruct n as [|tag attrs kids]; [now exists x|].
  destruct q as [|i q].
  - injection H as <-. eexists. split; [reflexivity|]. now split.
  - cbn [extend_at subtree kids_of] in *.
    destruct (Nat.eq_dec i k) as [->|N].
    + rewrite nth_update_nth.
      destruct (nth_error kids k) as [y|]; [|discriminate].
      cbn [option_map]. now apply IH.
    + rewrite nth_update_nth_other by exact N. now exists x.
Qed.



Lemma container_extend (p : list nat) (ns : list node) (d : node) :
  find_id "ranking" d = Some p ->
  (forall x, In x ns -> find_id "ranking" x = None) ->
  container (extend_at p ns d) =
  option_map (fun kids => kids ++ ns)%list (container d).
Proof.
  intros F H. unfold container.
  rewrite (find_id_extend_at _ _ _ H), F, subtree_extend_at.
  destruct (find_id_element _ _ _ F) as [tag [attrs [kids ->]]].
  reflexivity.
Qed.

(** What the script builds carries no [id]. *)
Lemma row_without_id (id : string) (n : node) :
  is_row n = true -> find_id id n = None.
Proof.
  assert (L : forall x, is_leaf x = true -> find_id id x = None).
  { intros [|tag [|a attrs] kids] H; try reflexivity.
    - destruct kids; [reflexivity|].
      cbn [is_leaf] in H. now rewrite !andb_false_r in H.
    - cbn [is_leaf] in H. now rewrite andb_false_r in H. }
  assert (K : forall x, is_cell x = true -> find_id id x = None).
  { intros [|tag [|a attrs] kids] H; try discriminate.
    - cbn [is_cell] in H. apply andb_prop in H. destruct H as [_ H].
      rewrite find_id_step. cbn [has_id id_of].
      rewrite first_at_none; [reflexivity|].
      intros x Hx. apply L. cbn [andb] in H.
      rewrite forallb_forall in H. now apply H.
    - cbn [is_cell] in H. now rewrite andb_false_r in H. }
  destruct n as [|tag [|a attrs] kids]; intro H; try discriminate.
  - cbn [is_row] in H. apply andb_prop in H. destruct H as [_ H].
    rewrite find_id_step. cbn [has_id id_of].
    rewrite first_at_none; [reflexivity|].
    intros x Hx. apply K. cbn [andb] in H.
    rewrite forallb_forall in H. now apply H.
  - cbn [is_row] in H. now rewrite andb_false_r in H.
Qed.

Section RendererFacts.
Context {NUM : Numbers}.

(** ** Cells *)

Lemma render_cell_inv (v : value) (td : node) :
  render_cell v = Ok td ->
  exists s, DOMString_of v = Ok s /\
            td = Elem "td" [] (rendered_text_fragment s).
Proof.
  unfold render_cell, set_innerText.
  destruct (DOMString_of v) as [s|e]; [|discriminate].
  intros [= <-]. now exists s.
Qed.


Lemma DOMString_of_value (v : value) : v <> VNull -> DOMString_of v = ToString v.
Proof.
  destruct v; try reflexivity. intro H. now contradiction H.
Qed.

(** Induction on values through the elements of arrays. *)
Lemma value_array_ind (P : value -> Prop) :
  P VNull ->
  (forall b, P (VBool b)) ->
  (forall n, P (VNum n)) ->
  (forall s, P (VStr s)) ->
  (forall items, Forall P items -> P (VArr items)) ->
  (forall fields, P (VObj fields)) ->
  forall v, P v.
Proof.
  intros HN HB HM HS HA HO.
  fix IH 1. intros [|b|n|s|items|fields].
  - exact HN.
  - apply HB.
  - apply HM.
  - apply HS.
  - apply HA. revert items. fix IHitems 1. intros [|x items].
    + constructor.
    + constructor; [apply IH | apply IHitems].
  - apply HO.
Qed.

(** The only exception of the conversion is the TypeError. *)
Lemma ToString_error :
  forall (v : value) (e : error), ToString v = Err e -> e = NotPrimitive.
Proof.
  induction v as [|b|n|s|items IH|fields] using value_array_ind; intros e H.
  - discriminate H.
  - destruct b; discriminate H.
  - discriminate H.
  - discriminate H.
  - cbn [ToString] in H.
    destruct (all_ok _ items) as [parts|e1] eqn:A; [discriminate|].
    injection H as <-. revert e1 A.
    induction IH as [|x items Hx _ IHitems]; intros e1 A; simpl in A.
    + discriminate.
    + destruct (match x with VNull => Ok "" | _ => ToString x end)
        as [s0|e0] eqn:F.
      * destruct (all_ok _ items) as [ss|e2]; [discriminate|].
        injection A as <-. now apply IHitems.
      * injection A as <-. destruct x; try discriminate F; apply (Hx _ F).
  - cbn [ToString] in H.
    destruct (has_own "toString" fields); [now injection H as <- | discriminate].
Qed.

Lemma DOMString_of_error (v : value) (e : error) :
  DOMString_of v = Err e -> e = NotPrimitive.
Proof.
  intro H. destruct v; try (apply (ToString_error _ _ H)). discriminate H.
Qed.

Lemma render_cell_shape (v : value) (td : node) :
  render_cell v = Ok td -> is_cell td = true.
Proof.
  intro H. destruct (render_cell_inv v td H) as [s [_ ->]].
  cbn [is_cell String.eqb Ascii.eqb Bool.eqb andb].
  now apply fragment_leaves.
Qed.


Lemma render_row_shape (cells : list value) (tr : node) :
  render_row cells = Ok tr -> is_row tr = true.
Proof.
  unfold render_row.
  destruct (all_ok render_cell cells) as [tds|e] eqn:A; [|discriminate].
  intros [= <-]. cbn [is_row String.eqb Ascii.eqb Bool.eqb andb].
  revert tds A. induction cells as [|v cells IH]; intros tds A; simpl in A.
  - now injection A as <-.
  - destruct (render_cell v) as [td|e] eqn:R; [|discriminate].
    destruct (all_ok render_cell cells) as [tds'|e]; [|discriminate].
    injection A as <-. cbn [forallb].
    now rewrite (render_cell_shape v td R), (IH tds' eq_refl).
Qed.


(** ** The loops *)

(** The inner loop on the row [tr]. *)
Lemma each_cells (cells : list value) :
  forall tr,
    match all_ok render_cell cells with
    | Ok tds =>
        each cell_callback cells tr =
        (Ok tt, {| tagName := tagName tr; childNodes := childNodes tr ++ tds |})
    | Err e => fst (each cell_callback cells tr) = Err e
    end.
Proof.
  induction cells as [|v cells IH]; intro tr; cbn [all_ok each].
  - unfold ret. destruct tr as [t k]. simpl. now rewrite app_nil_r.
  - unfold bind.
    change (cell_callback v tr)
      with (match set_innerText v (createElement "td") with
            | Ok td => (Ok tt, appendChild (as_node td) tr)
            | Err e => (Err e, tr)
            end).
    unfold render_cell at 1.
    destruct (set_innerText v (createElement "td")) as [td|e]; [|reflexivity].
    specialize (IH (appendChild (as_node td) tr)).
    destruct (all_ok render_cell cells) as [tds|e].
    + rewrite IH. unfold appendChild. simpl. now rewrite <- app_assoc.
    + exact IH.
Qed.

Lemma cells_loop {S : Type} (cells : list value) (tr : element) (s : S) :
  with_local tr (each cell_callback cells) s =
  match all_ok render_cell cells with
  | Ok tds =>
      (Ok {| tagName := tagName tr; childNodes := childNodes tr ++ tds |}, s)
  | Err e => (Err e, s)
  end.
Proof.
  unfold with_local. pose proof (each_cells cells tr) as H.
  destruct (all_ok render_cell cells) as [tds|e].
  - now rewrite H.
  - destruct (each cell_callback cells tr) as [[u|e'] l]; simpl in H;
      [discriminate | now injection H as ->].
Qed.

Lemma row_callback_array (table : option (list nat)) (cells : list value)
      (w : world) :
  row_callback table (VArr cells) w =
  match render_row cells with
  | Ok tr => appendChild_to table tr w
  | Err e => (Err e, w)
  end.
Proof.
  unfold row_callback, bind. cbn [forEach].
  rewrite cells_loop. unfold render_row.
  now destruct (all_ok render_cell cells).
Qed.

Lemma row_callback_other (table : option (list nat)) (row : value) (w : world) :
  is_array row = false -> row_callback table row w = (Err NotAFunction, w).
Proof.
  destruct row; try discriminate; reflexivity.
Qed.

Lemma grow_nil (p : list nat) (w : world) : grow p [] w = w.
Proof.
  destruct w as [n d s]. unfold grow. simpl. now rewrite extend_at_nil.
Qed.

Lemma grow_cons (p : list nat) (n : node) (ns : list node) (w : world) :
  grow p ns (grow p [n] w) = grow p (n :: ns) w.
Proof.
  unfold grow. simpl. now rewrite extend_at_twice.
Qed.

(** The outer loop on a page that has the container. *)
Lemma each_rows (p : list nat) (items : list value) :
  forall w,
    each (row_callback (Some p)) items w =
    (snd (rows_of items), grow p (fst (rows_of items)) w).
Proof.
  induction items as [|row items IH]; intro w.
  - simpl. unfold ret. now rewrite grow_nil.
  - cbn [each]. unfold bind at 1.
    destruct (is_array row) eqn:A.
    + destruct row as [| | | |cells|]; try discriminate.
      rewrite row_callback_array. cbn [rows_of].
      destruct (render_row cells) as [tr|e]; [|simpl; now rewrite grow_nil].
      change (appendChild_to (Some p) tr w) with (Ok tt, grow p [tr] w).
      cbv beta iota. rewrite IH.
      destruct (rows_of items) as [trs o]. simpl. now rewrite grow_cons.
    + rewrite row_callback_other by exact A.
      destruct row; try discriminate; simpl; now rewrite grow_nil.
Qed.

(** The outer loop on a page without the container. *)
Lemma each_rows_null (items : list value) (w : world) :
  each (row_callback None) items w = (without_table items, w).
Proof.
  destruct items as [|row items]; [reflexivity|].
  cbn [each]. unfold bind at 1.
  destruct (is_array row) eqn:A.
  - destruct row as [| | | |cells|]; try discriminate.
    rewrite row_callback_array. cbn [without_table].
    now destruct (render_row cells).
  - rewrite row_callback_other by exact A.
    destruct row; try discriminate; reflexivity.
Qed.

(** ** What the outer loop appends *)

Lemma rows_of_shape (items : list value) :
  forallb is_row (fst (rows_of items)) = true.
Proof.
  induction items as [|row items IH]; [reflexivity|].
  destruct row as [| | | |cells|]; try reflexivity.
  cbn [rows_of]. destruct (render_row cells) as [tr|e] eqn:R; [|reflexivity].
  destruct (rows_of items) as [trs o].
  cbn [fst forallb] in *. now rewrite (render_row_shape cells tr R), IH.
Qed.

Lemma rows_without_id (id : string) (items : list value) (x : node) :
  In x (fst (rows_of items)) -> find_id id x = None.
Proof.
  intro H. apply row_without_id.
  pose proof (rows_of_shape items) as F.
  rewrite forallb_forall in F. now apply F.
Qed.







(** ** The chain *)

Lemma run_rejected (w : world) (e : error) :
  payload w = Err e -> run w = (Err e, logged w).
Proof.
  unfold payload, run, script, bind, fetch, json.
  fold data_request. fold (logged w).
  destruct (network w (length (sent w)) data_request) as [res|].
  - destruct (json_body res); [discriminate|]. now intros [= <-].
  - now intros [= <-].
Qed.

Lemma run_rendering (w : world) (data : value) :
  payload w = Ok data ->
  run w = forEach data (row_callback (find_id "ranking" (page w))) (logged w).
Proof.
  unfold payload, run, script, bind, fetch, json.
  fold data_request. fold (logged w).
  destruct (network w (length (sent w)) data_request) as [res|]; [|discriminate].
  destruct (json_body res); [|discriminate]. now intros [= <-].
Qed.

(** Where a run leaves the world. *)
Lemma after_shape (w : world) :
  after w =
  match find_id "ranking" (page w) with
  | Some p =>
      grow p (match payload w with Ok data => rendered data | Err _ => [] end)
           (logged w)
  | None => logged w
  end.
Proof.
  unfold after.
  destruct (payload w) as [data|e] eqn:P.
  - rewrite (run_rendering w data P).
    destruct data;
      try (destruct (find_id "ranking" (page w));
           [now rewrite grow_nil | reflexivity]).
    cbn [forEach rendered].
    destruct (find_id "ranking" (page w)) as [p|].
    + now rewrite each_rows.
    + now rewrite each_rows_null.
  - rewrite (run_rejected w e P).
    destruct (find_id "ranking" (page w)); [now rewrite grow_nil | reflexivity].
Qed.

Lemma network_after (w : world) : network (after w) = network w.
Proof.
  rewrite after_shape. now destruct (find_id "ranking" (page w)).
Qed.

Lemma run_sends (w : world) : sent (after w) = (sent w ++ [data_request])%list.
Proof.
  rewrite after_shape. now destruct (find_id "ranking" (page w)).
Qed.

Lemma settled_rendering (w : world) (data : value) :
  payload w = Ok data -> settled w = ending (present (page w)) data.
Proof.
  intro P. unfold settled, present. rewrite (run_rendering w data P).
  destruct data; try reflexivity.
  cbn [forEach ending].
  destruct (find_id "ranking" (page w)) as [p|].
  - now rewrite each_rows.
  - now rewrite each_rows_null.
Qed.

Lemma rendered_without_id (id : string) (data : value) (x : node) :
  In x (rendered data) -> find_id id x = None.
Proof.
  destruct data; try contradiction. apply rows_without_id.
Qed.

Lemma container_rendering (w : world) (data : value) :
  payload w = Ok data ->
  container (page (after w)) =
  option_map (fun kids => kids ++ rendered data)%list (container (page w)).
Proof.
  intro P. rewrite after_shape, P.
  destruct (find_id "ranking" (page w)) as [p|] eqn:F.
  - cbn [grow page logged].
    apply container_extend; [exact F | apply rendered_without_id].
  - cbn [logged page]. unfold container. now rewrite F.
Qed.

Lemma container_rejected (w : world) (e : error) :
  payload w = Err e -> page (after w) = page w.
Proof.
  intro P. unfold after. now rewrite (run_rejected w e P).
Qed.


End RendererFacts.

(** * The claims *)






(** C3, as the script has it.  The chain never reads the status of the
    response.  It ends in an unhandled rejection with the page untouched
    when the network gives no response, and when the body of the response
    cannot be read as JSON.  Two runs on the same page whose responses
    have the same body, whatever their statuses, end the same way and
    leave the same page: a non-success response is rendered as a success
    response with that body is. *)
Theorem C3_status_is_not_read {NUM : Numbers} :
  forall (w : world),
    (network w (length (sent w)) data_request = None ->
     settled w = Err FetchFailed /\ unhandled_rejection (settled w) /\
     page (after w) = page w) /\
    (forall res,
       network w (length (sent w)) data_request = Some res ->
       json_body res = None ->
       settled w = Err BodyNotJSON /\ unhandled_rejection (settled w) /\
       page (after w) = page w) /\
    (forall res w' res',
       network w (length (sent w)) data_request = Some res ->
       network w' (length (sent w')) data_request = Some res' ->
       json_body res' = json_body res ->
       page w' = page w ->
       settled w' = settled w /\ page (after w') = page (after w)).
Proof.
  intro w. split; [|split].
  - intro N.
    assert (P : payload w = Err FetchFailed) by (unfold payload; now rewrite N).
    unfold settled, after. rewrite (run_rejected w _ P).
    repeat split. now exists FetchFailed.
  - intros res N J.
    assert (P : payload w = Err BodyNotJSON)
      by (unfold payload; now rewrite N, J).
    unfold settled, after. rewrite (run_rejected w _ P).
    repeat split. now exists BodyNotJSON.
  - intros res w' res' N N' J D.
    assert (P : payload w' = payload w)
      by (unfold payload; now rewrite N, N', J).
    split.
    + unfold settled. destruct (payload w) as [data|e] eqn:Pw.
      * fold (settled w'). fold (settled w).
        now rewrite (settled_rendering w' data P),
                    (settled_rendering w data Pw), D.
      * now rewrite (run_rejected w' e P), (run_rejected w e Pw).
    + rewrite !after_shape, P, D.
      destruct (find_id "ranking" (page w)); cbn [page grow logged];
        now rewrite D.
Qed.

Lemma C3_status_is_not_read_witness :
  (settled (serve None empty_table) = Err FetchFailed /\
   page (after (serve None empty_table)) = empty_table) /\
  (settled (serve (Some {| status := 500; json_body := None |}) empty_table)
     = Err BodyNotJSON /\
   page (after (serve (Some {| status := 500; json_body := None |}) empty_table))
     = empty_table) /\
  settled (serve (reply 500 scores) empty_table)
    = settled (serve (reply 200 scores) empty_table).
Proof.
  split; [|split].
  - destruct (C3_status_is_not_read (serve None empty_table)) as [H _].
    destruct (H eq_refl) as [H1 [_ H2]]. split; [exact H1 | exact H2].
  - destruct (C3_status_is_not_read
                (serve (Some {| status := 500; json_body := None |}) empty_table))
      as [_ [H _]].
    destruct (H _ eq_refl eq_refl) as [H1 [_ H2]]. split; [exact H1 | exact H2].
  - destruct (C3_status_is_not_read (serve (reply 200 scores) empty_table))
      as [_ [_ H]].
    destruct (H _ (serve (reply 500 scores) empty_table) _
                eq_refl eq_refl eq_refl eq_refl) as [H1 _].
    exact H1.
Defined.

(** C3 as stated fails: a response with status 500 whose body is the JSON
    text of two rows is not a success response, yet both rows are appended
    and the chain is fulfilled. *)
Lemma C3_counterexample :
  ok {| status := 500; json_body := Some scores |} = false /\
  settled (serve (reply 500 scores) empty_table) = Ok tt /\
  ~ unhandled_rejection (settled (serve (reply 500 scores) empty_table)) /\
  container (page (after (serve (reply 500 scores) empty_table)))
    = Some [Elem "tr" [] [Elem "td" [] [Text "Alice"]; Elem "td" [] [Text "10"]];
            Elem "tr" [] [Elem "td" [] [Text "Bob"]; Elem "td" [] [Text "7"]]].
Proof.
  repeat (split; [reflexivity|]).
  split; [|reflexivity].
  intros [e H]. discriminate H.
Qed.






(** C6.  Whatever the network answers, a run leaves in the container
    every child it had, at the position it had: the children after the run
    are the children before it followed by the appended rows. *)
Theorem C6_container_only_grows {NUM : Numbers} :
  forall (w : world) (kids0 : list node),
    container (page w) = Some kids0 ->
    exists kids1,
      container (page (after w)) = Some kids1 /\
      (exists added, kids1 = kids0 ++ added)%list /\
      forall i c, nth_error kids0 i = Some c -> nth_error kids1 i = Some c.
Proof.
  intros w kids0 C.
  assert (H : exists added,
             container (page (after w)) = Some (kids0 ++ added)%list).
  { destruct (payload w) as [data|e] eqn:P.
    - exists (rendered data). now rewrite (container_rendering w data P), C.
    - exists []. rewrite (container_rejected w e P), C. now rewrite app_nil_r. }
  destruct H as [added H]. exists (kids0 ++ added)%list.
  split; [exact H|]. split; [now exists added|].
  intros i c Hi. rewrite nth_error_app1; [exact Hi|].
  apply nth_error_Some. now rewrite Hi.
Qed.

Lemma C6_container_only_grows_witness :
  container (page (serve (reply 200 scores) table_with_head)) = Some [thead] /\
  exists kids1,
    container (page (after (serve (reply 200 scores) table_with_head)))
      = Some kids1 /\
    nth_error kids1 0 = Some thead.
Proof.
  split; [reflexivity|].
  destruct (C6_container_only_grows (serve (reply 200 scores) table_with_head)
              _ eq_refl) as [kids1 [H1 [_ H2]]].
  exists kids1. split; [exact H1 | exact (H2 0%nat _ eq_refl)].
Defined.

(** C7.  Every run sends exactly one request, whatever the network and the
    page are: the log of requests grows by the single request to the path
    [/data] with method [GET], no query component, no header and no
    body. *)
Theorem C7_single_request {NUM : Numbers} :
  forall (w : world),
    sent (after w) =
    (sent w ++ [{| url := "/data"; method := "GET"; headers := []; body := None |}])%list /\
    length (sent (after w)) = S (length (sent w)) /\
    query_of "/data" = None.
Proof.
  intro w. rewrite run_sends. split; [reflexivity|].
  split; [|reflexivity].
  rewrite length_app. simpl. lia.
Qed.

(** C8, as the script has it.  The setter converts the value to a text:
    the string form of the value, the empty string for [null].  The
    conversion throws a TypeError for an object with an own [toString]
    property (or an array that holds one); the callback then ends in
    that exception and appends no cell.  For every other value the inner
    callback appends one [td] whose children are the rendered text
    fragment of the text, without any markup being parsed: text nodes and
    [br] elements only, a [br] standing for a line break of the text.
    When the text has no line break, which is the case of a text made of
    markup characters, the cell has no element child, holds the text as
    its only text node (or nothing when the text is empty) and has
    exactly that text as its text content. *)
Theorem C8_cell_content_is_text {NUM : Numbers} :
  forall (v : value) (tr : element),
    (v <> VNull -> DOMString_of v = ToString v) /\
    match DOMString_of v with
    | Err e => e = NotPrimitive /\ cell_callback v tr = (Err NotPrimitive, tr)
    | Ok s =>
        exists td,
          cell_callback v tr = (Ok tt, appendChild td tr) /\
          tag_of td = "td" /\
          kids_of td = rendered_text_fragment s /\
          (forall n, In n (kids_of td) ->
                     (exists data, n = Text data) \/ n = br) /\
          (has_line_break s = false ->
           children td = [] /\
           kids_of td = text_run s /\
           textContent td = s)
    end.
Proof.
  intros v tr. split; [apply DOMString_of_value|].
  destruct (DOMString_of v) as [s|e] eqn:D.
  - exists (Elem "td" [] (rendered_text_fragment s)).
    split; [unfold cell_callback, set_innerText; now rewrite D|].
    split; [reflexivity|]. split; [reflexivity|].
    split; [intro n; apply fragment_nodes|].
    intro H. unfold rendered_text_fragment, children.
    cbn [kids_of textContent]. rewrite fragment_without_break by exact H.
    cbn [append]. split; [now destruct s|]. split; [reflexivity|].
    apply text_of_run.
  - pose proof (DOMString_of_error v e D) as ->.
    split; [reflexivity|].
    unfold cell_callback, set_innerText. now rewrite D.
Qed.

Lemma C8_cell_content_is_text_witness :
  has_line_break "<b>Alice</b>" = false /\
  exists td,
    cell_callback marked_up (createElement "tr")
      = (Ok tt, appendChild td (createElement "tr")) /\
    children td = [] /\
    kids_of td = [Text "<b>Alice</b>"] /\
    textContent td = "<b>Alice</b>".
Proof.
  split; [reflexivity|].
  destruct (C8_cell_content_is_text marked_up (createElement "tr"))
    as [_ [td [H1 [_ [_ [_ H2]]]]]].
  exists td. split; [exact H1 | exact (H2 eq_refl)].
Defined.

(** C8 as stated fails: for the string of two lines ["a"], line feed,
    ["b"] the cell gets a [br] element child between two text nodes. *)
Lemma C8_counterexample :
  cell_callback two_lines (createElement "tr")
    = (Ok tt,
       appendChild (Elem "td" [] [Text "a"; br; Text "b"]) (createElement "tr")) /\
  children (Elem "td" [] [Text "a"; br; Text "b"]) = [Elem "br" [] []] /\
  ~ plain_text_cell two_lines (Elem "td" [] [Text "a"; br; Text "b"]).
Proof.
  split; [reflexivity|]. split; [reflexivity|].
  intros [H _]. discriminate H.
Qed.






(** * Further properties of the script *)

(** X1.  A run changes nothing of the page but the child list of the
    container, and with it the subtrees of the ancestors of the
    container.  The network is the same; every identifier resolves to the
    element at the same path; every node of the page stays at its path
    with its tag and its attributes; every node that is neither the
    container nor one of its ancestors is exactly what it was; and a page
    without the container is left as it was. *)
Theorem X1_rest_of_page_untouched {NUM : Numbers} :
  forall (w : world),
    network (after w) = network w /\
    (forall id, find_id id (page (after w)) = find_id id (page w)) /\
    (forall q x,
       subtree q (page w) = Some x ->
       exists x',
         subtree q (page (after w)) = Some x' /\
         tag_of x' = tag_of x /\ attrs_of x' = attrs_of x) /\
    (forall p q x,
       find_id "ranking" (page w) = Some p ->
       is_prefix q p = false ->
       subtree q (page w) = Some x ->
       subtree q (page (after w)) = Some x) /\
    (find_id "ranking" (page w) = None -> page (after w) = page w).
Proof.
  intro w. split; [apply network_after|].
  rewrite after_shape.
  destruct (find_id "ranking" (page w)) as [p|].
  - cbn [grow page logged].
    split.
    { intro id. apply find_id_extend_at. intros x Hx.
      destruct (payload w) as [data|e]; [|contradiction].
      now apply (rendered_without_id id data). }
    split; [intros q x; apply subtree_extend_at_label|].
    split; [|discriminate].
    intros p' q x [= <-]. apply subtree_extend_at_other.
  - cbn [logged page]. split; [reflexivity|].
    split; [intros q x H; now exists x|].
    split; [discriminate | reflexivity].
Qed.

Lemma X1_rest_of_page_untouched_witness :
  find_id "ranking" (page (serve (reply 200 scores) wrapped_table))
    = Some [0; 0; 0]%nat /\
  subtree [0; 1]%nat (page (after (serve (reply 200 scores) wrapped_table)))
    = Some heading.
Proof.
  split; [reflexivity|].
  destruct (X1_rest_of_page_untouched (serve (reply 200 scores) wrapped_table))
    as [_ [_ [_ [H _]]]].
  exact (H [0; 0; 0]%nat [0; 1]%nat heading eq_refl eq_refl eq_refl).
Defined.

(** X2.  When the parsed payload is not an array (an object, a string, a
    number, a boolean or [null]), [data.forEach] throws: the chain ends in
    an unhandled TypeError and the page is left as it was, with or without
    the container. *)
Theorem X2_payload_that_is_no_array {NUM : Numbers} :
  forall (w : world) (data : value),
    payload w = Ok data ->
    is_array data = false ->
    settled w = Err NotAFunction /\ page (after w) = page w.
Proof.
  intros w data P A. unfold settled, after.
  rewrite (run_rendering w data P).
  destruct data; try discriminate A; split; reflexivity.
Qed.

Lemma X2_payload_that_is_no_array_witness :
  is_array (VObj [("rows", scores)]) = false /\
  settled (serve (reply 200 (VObj [("rows", scores)])) empty_table)
    = Err NotAFunction /\
  page (after (serve (reply 200 (VObj [("rows", scores)])) empty_table))
    = empty_table.
Proof.
  split; [reflexivity|].
  apply (X2_payload_that_is_no_array
           (serve (reply 200 (VObj [("rows", scores)])) empty_table)
           (VObj [("rows", scores)])); reflexivity.
Defined.





(** X5.  Whatever the payload is and however the chain ends, everything a
    run adds to the container is a [tr] element whose children are all
    [td] elements, and the children of each [td] are text nodes that are
    neither empty nor hold a line break and [br] elements without
    children: no other element can come out of the payload. *)
Theorem X5_only_rows_of_cells_are_appended {NUM : Numbers} :
  forall (w : world) (kids0 : list node),
    container (page w) = Some kids0 ->
    exists added,
      container (page (after w)) = Some (kids0 ++ added)%list /\
      forallb is_row added = true.
Proof.
  intros w kids0 C.
  destruct (payload w) as [data|e] eqn:P.
  - exists (rendered data).
    split; [now rewrite (container_rendering w data P), C|].
    destruct data; try reflexivity. apply rows_of_shape.
  - exists []. split; [|reflexivity].
    rewrite (container_rejected w e P), C. now rewrite app_nil_r.
Qed.

Lemma X5_only_rows_of_cells_are_appended_witness :
  container (page (serve (reply 200 (VArr [VArr [marked_up; two_lines];
                                            VArr [poisoned]]))
                         table_with_head))
    = Some [thead] /\
  exists added,
    container
      (page (after (serve (reply 200 (VArr [VArr [marked_up; two_lines];
                                             VArr [poisoned]]))
                          table_with_head)))
      = Some ([thead] ++ added)%list /\
    forallb is_row added = true.
Proof.
  split; [reflexivity|].
  apply (X5_only_rows_of_cells_are_appended
           (serve (reply 200 (VArr [VArr [marked_up; two_lines]; VArr [poisoned]]))
                  table_with_head)).
  reflexivity.
Defined.



(** X7.  For a cell value that is a boolean, a number, or an object
    without an own [toString] property, the inner callback appends a [td]
    holding exactly one text node, whose data is the string form of the
    value: such values never produce a [br] element or an empty cell. *)
Theorem X7_plain_scalar_cell {NUM : Numbers} :
  forall (v : value) (tr : element),
    is_plain_scalar v = true ->
    exists s,
      ToString v = Ok s /\
      cell_callback v tr = (Ok tt, appendChild (Elem "td" [] [Text s]) tr).
Proof.
  intros v tr H.
  assert (K : forall s,
             ToString v = Ok s -> v <> VNull ->
             has_line_break s = false -> s <> "" ->
             cell_callback v tr
             = (Ok tt, appendChild (Elem "td" [] [Text s]) tr)).
  { intros s T Hv Hb Hs. unfold cell_callback, set_innerText.
    rewrite (DOMString_of_value v Hv), T.
    cbn [as_node tagName childNodes createElement].
    unfold rendered_text_fragment.
    rewrite fragment_without_break by exact Hb.
    cbn [append]. now destruct s. }
  destruct v as [|b|n| | |fields]; try discriminate H.
  - exists (if b then "true" else "false").
    split; [now destruct b|].
    apply K; destruct b; try reflexivity; discriminate.
  - exists (Number_toString n). split; [reflexivity|].
    apply K; [reflexivity | discriminate | apply Number_toString_one_line
              | apply Number_toString_filled].
  - exists "[object Object]". cbn [is_plain_scalar] in H.
    apply negb_true_iff in H.
    assert (T : ToString (VObj fields) = Ok "[object Object]")
      by (cbn [ToString]; now rewrite H).
    split; [exact T|].
    apply K; [exact T | discriminate | reflexivity | discriminate].
Qed.

Lemma X7_plain_scalar_cell_witness :
  is_plain_scalar loss = true /\
  exists s,
    ToString loss = Ok s /\
    cell_callback loss (createElement "tr")
      = (Ok tt, appendChild (Elem "td" [] [Text s]) (createElement "tr")).
Proof.
  split; [reflexivity|].
  apply (X7_plain_scalar_cell loss (createElement "tr")).
  reflexivity.
Defined.
